(** * ELPF: the particle-filter core of [ELPF/particle_filter.py]

    A shallow embedding of [ParticleFilter.predict], [ParticleFilter.resample],
    [BootstrapParticleFilter.update] and
    [ExpectedLikelihoodParticleFilter.update], with the numpy primitives they
    call, followed by the properties of the predict / update / resample cycle.

    Numbers.  A float64 is modelled by [num]: an exact rational ([Qc], so no
    rounding happens) or one of the IEEE special values that numpy produces
    where Python would raise (division by zero gives an infinity or a NaN
    and a warning).  Signed zeros are not distinguished.

    Arrays.  A 1-d array is a [list num].  The [d x N] state matrix and the
    [m x N] predicted-measurement matrix are kept as the list of their [N]
    columns, which is what the code iterates over ([new_states.T],
    [new_state_vector.T], [state_vector[:, index]]). *)

From Stdlib Require Import QArith Qcanon.
From stdpp Require Import base numbers list option.

Local Open Scope Qc_scope.

(** ** Exceptions and results *)

(** The exceptions of Python and numpy that the filter can meet, and
    [ModelError] for whatever a collaborator raises. *)
Inductive exn : Set :=
  | IndexError
  | ValueError
  | ZeroDivisionError
  | ModelError.

Inductive result (A : Type) : Type :=
  | Ok (a : A)
  | Err (e : exn).
Arguments Ok {A} a.
Arguments Err {A} e.

#[global] Instance result_ret : MRet result := λ A a, Ok a.
#[global] Instance result_bind : MBind result := λ A B f r,
  match r with
  | Ok a => f a
  | Err e => Err e
  end.


(** ** Numbers *)

Inductive num : Set :=
  | Fin (q : Qc)
  | PInf
  | NInf
  | NaN.

#[global] Instance num_inhabited : Inhabited num := populate NaN.

Definition Qc_of_nat (n : nat) : Qc := Qc_of_Z (Z.of_nat n).

Module Np.

Definition isnan (x : num) : bool :=
  match x with NaN => true | _ => false end.

Definition neg (x : num) : num :=
  match x with
  | Fin a => Fin (- a)
  | PInf => NInf
  | NInf => PInf
  | NaN => NaN
  end.

Definition add (x y : num) : num :=
  match x, y with
  | NaN, _ | _, NaN => NaN
  | Fin a, Fin b => Fin (a + b)
  | PInf, NInf | NInf, PInf => NaN
  | PInf, _ | _, PInf => PInf
  | NInf, _ | _, NInf => NInf
  end.

Definition sub (x y : num) : num := add x (neg y).

(** The infinity with the sign of [a], and NaN for zero. *)
Definition signed_inf (a : Qc) : num :=
  if bool_decide (0 < a) then PInf
  else if bool_decide (a < 0) then NInf
  else NaN.

Definition mul (x y : num) : num :=
  match x, y with
  | NaN, _ | _, NaN => NaN
  | Fin a, Fin b => Fin (a * b)
  | Fin a, PInf | PInf, Fin a => signed_inf a
  | Fin a, NInf | NInf, Fin a => signed_inf (- a)
  | PInf, PInf | NInf, NInf => PInf
  | PInf, NInf | NInf, PInf => NInf
  end.

(** numpy's true division: a zero divisor gives an infinity or a NaN. *)
Definition div (x y : num) : num :=
  match x, y with
  | NaN, _ | _, NaN => NaN
  | Fin a, Fin b => if bool_decide (b = 0) then signed_inf a else Fin (a / b)
  | Fin _, (PInf | NInf) => Fin 0
  | PInf, Fin b => if bool_decide (b < 0) then NInf else PInf
  | NInf, Fin b => if bool_decide (b < 0) then PInf else NInf
  | (PInf | NInf), (PInf | NInf) => NaN
  end.

(** [x < y]; every comparison with a NaN is false. *)
Definition lt (x y : num) : bool :=
  match x, y with
  | NaN, _ | _, NaN => false
  | Fin a, Fin b => bool_decide (a < b)
  | NInf, NInf => false
  | NInf, _ => true
  | _, NInf => false
  | PInf, _ => false
  | Fin _, PInf => true
  end.

Definition gt (x y : num) : bool := lt y x.

(** [x <= y] and [x >= y]. *)
Definition le (x y : num) : bool :=
  match x, y with
  | NaN, _ | _, NaN => false
  | Fin a, Fin b => bool_decide (a ≤ b)
  | NInf, _ => true
  | _, PInf => true
  | _, NInf => false
  | PInf, _ => false
  end.

Definition ge (x y : num) : bool := le y x.

(** [np.sum]: the sum of an empty array is [0.0]. *)
Definition sum (a : list num) : num := foldl add (Fin 0) a.

(** [a ** 2]. *)
Definition square (a : list num) : list num := fmap (λ x, mul x x) a.

(** [np.cumsum]. *)
Fixpoint cumsum_from (acc : num) (a : list num) : list num :=
  match a with
  | [] => []
  | x :: a' => add acc x :: cumsum_from (add acc x) a'
  end.
Definition cumsum (a : list num) : list num := cumsum_from (Fin 0) a.

(** [np.arange(n)]. *)
Definition arange (n : nat) : list num := fmap (λ j, Fin (Qc_of_nat j)) (seq 0 n).

(** [a * b] on 1-d arrays: equal lengths multiply elementwise, a length-1
    operand is broadcast, any other pair of shapes is a [ValueError]. *)
Definition mul_arrays (a b : list num) : result (list num) :=
  if bool_decide (length a = length b) then Ok (zip_with mul a b)
  else match a, b with
       | _, [y] => Ok (fmap (λ x, mul x y) a)
       | [x], _ => Ok (fmap (mul x) b)
       | _, _ => Err ValueError
       end.

(** [scalar + scalar * array]. *)
Definition affine (c k : num) (a : list num) : list num :=
  fmap (λ x, add c (mul k x)) a.

(** [a[-1] = v]: an [IndexError] on an empty array. *)
Definition set_last (a : list num) (v : num) : result (list num) :=
  match a with
  | [] => Err IndexError
  | _ => Ok (<[pred (length a) := v]> a)
  end.

(** The order in which numpy sorts and searches floats: NaN is the largest. *)
Definition less (x y : num) : bool := lt x y || (isnan y && negb (isnan x)).

(** [np.searchsorted(a, v)] with the default [side='left'], for one key:
    the bisection loop [while lo < hi] on the index range [lo, hi). *)
Fixpoint bisect_left (fuel : nat) (a : list num) (key : num) (lo hi : nat) : nat :=
  match fuel with
  | O => lo
  | S fuel' =>
      if bool_decide (lo < hi)%nat then
        let mid := (lo + (hi - lo) / 2)%nat in
        if less (a !!! mid) key
        then bisect_left fuel' a key (S mid) hi
        else bisect_left fuel' a key lo mid
      else lo
  end.

Definition searchsorted1 (a : list num) (key : num) : nat :=
  bisect_left (length a) a key 0 (length a).

Definition searchsorted (a keys : list num) : list nat :=
  fmap (searchsorted1 a) keys.

(** [cols[:, index]] on a matrix kept as the list of its columns; an index
    outside the columns is an [IndexError]. *)
Fixpoint take_columns {A} (cols : list A) (index : list nat) : result (list A) :=
  match index with
  | [] => Ok []
  | i :: index' =>
      match cols !! i with
      | Some c => rest ← take_columns cols index'; Ok (c :: rest)
      | None => Err IndexError
      end
  end.

(** [np.zeros((m, n))], as the list of the [m] rows. *)
Definition zeros (m n : nat) : list (list num) := replicate m (replicate n (Fin 0)).

(** [row[:] = v] for a row of length [n], with numpy's broadcasting. *)
Definition assign_row (n : nat) (v : list num) : result (list num) :=
  if bool_decide (length v = n) then Ok v
  else match v with
       | [x] => Ok (replicate n x)
       | _ => Err ValueError
       end.

(** [np.mean(a, axis=0)] of an array of [m] rows and [n] columns: the rows
    are added up and the sums divided by the number of rows. *)
Definition mean_axis0 (n : nat) (rows : list (list num)) : list num :=
  fmap (λ s, div s (Fin (Qc_of_nat (length rows))))
      (foldl (zip_with add) (replicate n (Fin 0)) rows).

End Np.

(** Python's [a / b] on two ints, or on a float and an int: a zero divisor
    raises. *)
Definition py_truediv (a b : nat) : result num :=
  if bool_decide (b = 0%nat) then Err ZeroDivisionError
  else Ok (Fin (Qc_of_nat a / Qc_of_nat b)).

(** ** Data model

    [ELPF/state.py] and [ELPF/detection.py] are not among the sources at
    hand; their classes follow the specification and the way
    [particle_filter.py] constructs and reads them. *)

(** Modelled from the spec: the [Particle] class of [ELPF/state.py], one
    weighted state hypothesis. *)
Record Particle : Type := mkParticle {
  state_vector : list num;
  weight : num;
}.

(** Modelled from the spec: the [ParticleState] class of [ELPF/state.py], an
    ordered collection of particles with an optional timestamp, whose
    aggregate views are derived from the particles in their stored order. *)
Record ParticleState : Type := mkParticleState {
  particles : list Particle;
  timestamp : option Z;
}.

(** [ParticleState(particles)]: no timestamp is passed. *)
Definition new_ParticleState (ps : list Particle) : ParticleState :=
  {| particles := ps; timestamp := None |}.

(** Modelled from the spec: the [num_particles], [weights] and
    [state_vector] properties of [ParticleState], derived from the particles
    in their stored order. *)
Definition num_particles (s : ParticleState) : nat := length (particles s).
Definition weights (s : ParticleState) : list num := fmap weight (particles s).
Definition stacked_states (s : ParticleState) : list (list num) :=
  fmap state_vector (particles s).

(** Modelled from the spec: the detection classes of [ELPF/detection.py];
    the filter reads the [state_vector] of a measurement only. *)
Record Detection : Type := mkDetection {
  det_state_vector : list num;
}.

(** ** The process-wide random generator

    [np.random] keeps one generator for the whole process.  Its state is
    threaded through every operation that draws from it; [random_sample]
    is the draw in [[0, 1)] on which [np.random.uniform] is built. *)
Class RandomSource (rng : Type) := {
  random_sample : rng → Qc * rng;
  random_sample_range : ∀ g, 0 ≤ (random_sample g).1 ∧ (random_sample g).1 < 1;
}.

(** [np.random.uniform(low, high)] is [low + (high - low) * random_sample()]. *)
Definition uniform `{RandomSource rng} (low high : num) (g : rng) : num * rng :=
  let '(r, g') := random_sample g in
  (Np.add low (Np.mul (Np.sub high low) (Fin r)), g').

(** ** The filter

    A method takes, besides the arguments of the Python call, the state [g]
    of the process-wide generator at the time of the call, and returns the
    state it leaves behind. *)

Module ParticleFilter.
Section Methods.
Context `{RandomSource rng}.

(** The external collaborators.  The transition model may draw process noise
    from the generator, and may reject its arguments. *)
Record TransitionModel : Type := mkTransitionModel {
  tm_function : ParticleState → num → rng → result (list (list num) * rng);
}.

(** [mm_function s] is [function(s, noise=False)]. *)
Record MeasurementModel : Type := mkMeasurementModel {
  mm_function : ParticleState → list (list num);
  covar : list (list num);
}.

(** The attributes set by [__init__]. *)
Record t : Type := mk {
  transition_model : TransitionModel;
  measurement_model : MeasurementModel;
  likelihood_function : list num → list (list num) → list (list num) → list num;
}.

Definition predict (self : t) (g : rng)
    (particle_state : ParticleState) (time_interval : num)
    : result (ParticleState * rng) :=
  '(new_states, g') ← tm_function (transition_model self) particle_state time_interval g;
  Ok (new_ParticleState
        (zip_with (λ state particle, mkParticle state (weight particle))
                  new_states (particles particle_state)),
      g').

(** The effective sample size [1 / np.sum(weights ** 2)]. *)
Definition ess (particle_state : ParticleState) : num :=
  Np.div (Fin 1) (Np.sum (Np.square (weights particle_state))).

(** The test [ess < num_particles / 2]. *)
Definition resample_needed (particle_state : ParticleState) : bool :=
  Np.lt (ess particle_state)
        (Fin (Qc_of_nat (num_particles particle_state) / Qc_of_nat 2)).

(** The [cdf], the sample points [u_j] and the [index] array of the
    resampling branch, with the generator after the draw. *)
Definition resample_index (g : rng) (particle_state : ParticleState)
    : result (list num * list num * list nat * rng) :=
  let num_particles := num_particles particle_state in
  let weights := weights particle_state in
  cdf ← Np.set_last (Np.cumsum weights) (Fin 1);
  high ← py_truediv 1 num_particles;
  let '(u_i, g') := uniform (Fin 0) high g in
  step ← py_truediv 1 num_particles;
  let u_j := Np.affine u_i step (Np.arange num_particles) in
  let index := Np.searchsorted cdf u_j in
  Ok (cdf, u_j, index, g').

Definition resample (g : rng) (particle_state : ParticleState)
    : result (ParticleState * rng) :=
  let num_particles := num_particles particle_state in
  if resample_needed particle_state then
    '(_, _, index, g') ← resample_index g particle_state;
    new_state_vector ← Np.take_columns (stacked_states particle_state) index;
    w ← py_truediv 1 num_particles;
    Ok (new_ParticleState (fmap (λ state_vector, mkParticle state_vector w) new_state_vector),
        g')
  else Ok (particle_state, g).

(** What both updates do between the new weights and the resampling: the
    particles are built with the new weights, which are then divided in
    place by their total when it is positive. *)
Definition reweight (particle_state : ParticleState) (new_weights : list num)
    : ParticleState :=
  let new_particles :=
    zip_with (λ particle new_weight, mkParticle (state_vector particle) new_weight)
             (particles particle_state) new_weights in
  let total_weight := Np.sum new_weights in
  new_ParticleState
    (if Np.gt total_weight (Fin 0)
     then fmap (λ p, mkParticle (state_vector p) (Np.div (weight p) total_weight))
              new_particles
     else new_particles).

End Methods.
Arguments TransitionModel : clear implicits.
Arguments MeasurementModel : clear implicits.
Arguments t : clear implicits.
End ParticleFilter.

Module BootstrapParticleFilter.
Import ParticleFilter.
Section Methods.
Context `{RandomSource rng}.

(** [weights * likelihoods]. *)
Definition new_weights (self : ParticleFilter.t rng)
    (particle_state : ParticleState) (measurement : Detection)
    : result (list num) :=
  let predicted_measurements := mm_function (measurement_model self) particle_state in
  let likelihoods :=
    likelihood_function self (det_state_vector measurement) predicted_measurements
                        (covar (measurement_model self)) in
  let weights := fmap weight (particles particle_state) in
  Np.mul_arrays weights likelihoods.

Definition update (self : ParticleFilter.t rng) (g : rng)
    (particle_state : ParticleState) (measurement : Detection)
    : result (ParticleState * rng) :=
  new_weights ← new_weights self particle_state measurement;
  resample g (reweight particle_state new_weights).

End Methods.
End BootstrapParticleFilter.

Module ExpectedLikelihoodParticleFilter.
Import ParticleFilter.
Section Methods.
Context `{RandomSource rng}.

(** The loop [for i, measurement in enumerate(measurements)] that assigns
    row [i] of the array [a]. *)
Fixpoint fill_rows (self : ParticleFilter.t rng)
    (predicted_measurements : list (list num)) (a : list (list num)) (i : nat)
    (measurements : list Detection) : result (list (list num)) :=
  match measurements with
  | [] => Ok a
  | measurement :: rest =>
      row ← Np.assign_row (length predicted_measurements)
            (likelihood_function self (det_state_vector measurement)
               predicted_measurements (covar (measurement_model self)));
      fill_rows self predicted_measurements (<[i := row]> a) (S i) rest
  end.

(** [association_probabilities]: an array of zeros with one row per
    measurement and one column per predicted measurement, then filled. *)
Definition association_probabilities (self : ParticleFilter.t rng)
    (predicted_measurements : list (list num)) (measurements : list Detection)
    : result (list (list num)) :=
  fill_rows self predicted_measurements
    (Np.zeros (length measurements) (length predicted_measurements))
    0 measurements.

(** [np.mean(association_probabilities, axis=0)]. *)
Definition expected_likelihoods (self : ParticleFilter.t rng)
    (particle_state : ParticleState) (measurements : list Detection)
    : result (list num) :=
  let predicted_measurements := mm_function (measurement_model self) particle_state in
  rows ← association_probabilities self predicted_measurements measurements;
  Ok (Np.mean_axis0 (length predicted_measurements) rows).

(** [weights * expected_likelihoods]. *)
Definition new_weights (self : ParticleFilter.t rng)
    (particle_state : ParticleState) (measurements : list Detection)
    : result (list num) :=
  expected ← expected_likelihoods self particle_state measurements;
  let weights := fmap weight (particles particle_state) in
  Np.mul_arrays weights expected.

Definition update (self : ParticleFilter.t rng) (g : rng)
    (particle_state : ParticleState) (measurements : list Detection)
    : result (ParticleState * rng) :=
  new_weights ← new_weights self particle_state measurements;
  resample g (reweight particle_state new_weights).

End Methods.
End ExpectedLikelihoodParticleFilter.

Import ParticleFilter.

(** ** Vocabulary of the properties *)

(** The sum of a list of rationals. *)
Definition Qc_sum (l : list Qc) : Qc := foldr Qcplus 0 l.

Definition is_Fin (x : num) : Prop := ∃ q, x = Fin q.

(** The quantities of the resampling branch as the specification words
    them: the offset [u_0] drawn in [[0, 1/N)], the sample points
    [u_j = u_0 + j/N], and the cumulative weights with the last one forced
    to one. *)
Definition sample_offset `{RandomSource rng} (g : rng) (n : nat) : Qc :=
  (random_sample g).1 / Qc_of_nat n.

Definition sample_point `{RandomSource rng} (g : rng) (n j : nat) : Qc :=
  sample_offset g n + Qc_of_nat j / Qc_of_nat n.

Definition sample_points `{RandomSource rng} (g : rng) (n : nat) : list num :=
  (λ j, Fin (sample_point g n j)) <$> seq 0 n.

Definition forced_cdf (s : ParticleState) : list num :=
  <[pred (num_particles s) := Fin 1]> (Np.cumsum (weights s)).

(** The weights of the data model: non-negative reals. *)
Definition nonneg_weights (s : ParticleState) : Prop :=
  Forall (λ w, ∃ q, w = Fin q ∧ 0 ≤ q) (weights s).

(** [i] is the first index of [cdf] with [cdf[i] >= u]. *)
Definition first_index_ge (cdf : list num) (u : num) (i : nat) : Prop :=
  (i < length cdf)%nat ∧
  Np.ge (cdf !!! i) u = true ∧
  ∀ i', (i' < i)%nat → Np.ge (cdf !!! i') u = false.

(** The weight a particle ends with, given the total of the new weights. *)
Definition normalised (total_weight w : num) : num :=
  if Np.gt total_weight (Fin 0) then Np.div w total_weight else w.

(** Column [i] of an array kept as the list of its rows. *)
Definition column (i : nat) (rows : list (list num)) : list num :=
  (λ row, row !!! i) <$> rows.

(** The arithmetic mean of a list of numbers. *)
Definition arithmetic_mean (xs : list num) : num :=
  Np.div (Np.sum xs) (Fin (Qc_of_nat (length xs))).


Section Vocabulary.
Context `{RandomSource rng}.
Implicit Types (self : ParticleFilter.t rng) (g : rng) (s : ParticleState).

(** The likelihood vector of one measurement. *)
Definition likelihoods_of self s (z : Detection) : list num :=
  likelihood_function self (det_state_vector z)
    (mm_function (measurement_model self) s) (covar (measurement_model self)).

(** The shapes the collaborators owe: the transition model returns normally
    with one new state vector per particle, the measurement model predicts
    one measurement per particle, and the likelihood function returns one
    likelihood per particle. *)
Definition transition_conforms self g s (time_interval : num) : Prop :=
  ∃ cols g', tm_function (transition_model self) s time_interval g = Ok (cols, g')
             ∧ length cols = num_particles s.

Definition measurement_conforms self s : Prop :=
  length (mm_function (measurement_model self) s) = num_particles s.

Definition likelihood_conforms self s (z : Detection) : Prop :=
  length (likelihoods_of self s z) = num_particles s.




(** The index array alone. *)
Definition selected_indices g s : result (list nat) :=
  '(_, _, index, _) ← resample_index g s; Ok index.

End Vocabulary.

(** ** A concrete generator and concrete collaborators, for running the model *)

(** A 4-bit linear congruential generator: the draw is [state mod 16 / 16]. *)
Definition lcg_draw (s : nat) : Qc := Q2Qc (Z.of_nat (s mod 16) # 16).
Definition lcg_next (s : nat) : nat := (5 * s + 3) mod 16.

#[global] Program Instance lcg : RandomSource nat := {|
  random_sample s := (lcg_draw s, lcg_next s);
|}.
Next Obligation.
  intros s. pose proof (Nat.mod_upper_bound s 16 ltac:(lia)) as Hlt.
  unfold lcg_draw, Qcle, Qclt; simpl. rewrite !Qred_correct.
  unfold Qle, Qlt; simpl. lia.
Qed.

Definition ratio (a : Z) (b : positive) : num := Fin (Q2Qc (a # b)).

(** Three particles at [[0,0]], [[1,0]], [[2,0]] with weights 0.2, 0.3, 0.5. *)
Definition example_state : ParticleState :=
  new_ParticleState
    [mkParticle [ratio 0 1; ratio 0 1] (ratio 1 5);
     mkParticle [ratio 1 1; ratio 0 1] (ratio 3 10);
     mkParticle [ratio 2 1; ratio 0 1] (ratio 1 2)].

(** The same particles with the weight concentrated on the third. *)
Definition peaked_state : ParticleState :=
  new_ParticleState
    [mkParticle [ratio 0 1; ratio 0 1] (ratio 1 20);
     mkParticle [ratio 1 1; ratio 0 1] (ratio 1 20);
     mkParticle [ratio 2 1; ratio 0 1] (ratio 9 10)].



(** Collaborators without noise: the transition leaves every state where it
    is, the predicted measurement of a particle is its state, and the
    likelihoods are 0.1, 0.1 and 0.8 for three particles (none for none). *)
Definition example_filter : ParticleFilter.t nat :=
  {| transition_model := {| tm_function s _ g := Ok (stacked_states s, g) |};
     measurement_model := {| mm_function s := stacked_states s; covar := [] |};
     likelihood_function _ predicted _ :=
       match predicted with
       | [] => []
       | _ => [ratio 1 10; ratio 1 10; ratio 4 5]
       end |}.

Definition example_detection : Detection := mkDetection [ratio 2 1; ratio 0 1].

(** The rational a number stands for, if it is one. *)
Definition rational (x : num) : option Q :=
  match x with
  | Fin q => Some (this q)
  | _ => None
  end.

Definition rationals (a : list num) : list (option Q) := rational <$> a.



(** ** The filtering loop of [examples/elpf_test.py]

    The script keeps a [track], a list of particle states that starts with
    the prior, and for every measurement set predicts from the last state of
    the track, updates with the set and appends the posterior.  A measurement
    set is a Python [set]; it is a list here, in the order of iteration. *)

Section Loop.
Context `{RandomSource rng}.
Implicit Types (self : ParticleFilter.t rng) (g : rng).




(** Collaborators that honour their shapes on every input. *)
Definition models_conform self : Prop :=
  (∀ g s time_interval, transition_conforms self g s time_interval)
  ∧ (∀ s, measurement_conforms self s)
  ∧ (∀ s z, likelihood_conforms self s z).

End Loop.

(** Every weight is a NaN. *)
Definition all_nan (s : ParticleState) : Prop :=
  Forall (λ w, w = NaN) (weights s).

(** A filter whose likelihood is 1/2 for every particle, whatever their
    number. *)
Definition flat_filter : ParticleFilter.t nat :=
  {| transition_model := {| tm_function s _ g := Ok (stacked_states s, g) |};
     measurement_model := {| mm_function s := stacked_states s; covar := [] |};
     likelihood_function _ predicted _ := (λ _, ratio 1 2) <$> predicted |}.

(** A state whose weights are all NaN, as an update without measurements
    leaves them. *)
Definition nan_state : ParticleState :=
  new_ParticleState
    [mkParticle [ratio 0 1; ratio 0 1] NaN;
     mkParticle [ratio 1 1; ratio 0 1] NaN].

(** Two particles, one fewer than [example_filter] has likelihoods for. *)
Definition two_state : ParticleState :=
  new_ParticleState
    [mkParticle [ratio 0 1; ratio 0 1] (ratio 1 2);
     mkParticle [ratio 1 1; ratio 0 1] (ratio 1 2)].


(** Three particles of weight [1 / 3]: [np.ones(3) / 3]. *)
Definition uniform_state : ParticleState :=
  new_ParticleState
    [mkParticle [ratio 0 1; ratio 0 1] (Fin (1 / Qc_of_nat 3));
     mkParticle [ratio 1 1; ratio 0 1] (Fin (1 / Qc_of_nat 3));
     mkParticle [ratio 2 1; ratio 0 1] (Fin (1 / Qc_of_nat 3))].



(** Four particles; the last one weighs [1 / 4]. *)
Definition quarter_state : ParticleState :=
  new_ParticleState
    [mkParticle [ratio 0 1] (ratio 1 50);
     mkParticle [ratio 1 1] (ratio 3 100);
     mkParticle [ratio 2 1] (ratio 7 10);
     mkParticle [ratio 3 1] (ratio 1 4)].

(** * Properties *)

(** ** Arithmetic of [num] *)

Section NumFacts.

Lemma add_0_l x : Np.add (Fin 0) x = x.
Proof. destruct x; simpl; [|done..]. by rewrite Qcplus_0_l. Qed.

Lemma div_1_r x : Np.div x (Fin 1) = x.
Proof.
  destruct x as [a| | |]; [|done..].
  unfold Np.div. rewrite bool_decide_eq_false_2 by done.
  f_equal. apply (right_id 1 Qcdiv).
Qed.


Lemma less_Fin a b : Np.less (Fin a) (Fin b) = bool_decide (a < b).
Proof. unfold Np.less, Np.lt, Np.isnan. by rewrite orb_false_r. Qed.

Lemma Qc_of_nat_0 : Qc_of_nat 0 = 0.
Proof. by apply Qc_is_canon. Qed.

Lemma Qc_of_nat_1 : Qc_of_nat 1 = 1.
Proof. by apply Qc_is_canon. Qed.

Lemma Qc_of_nat_S n : Qc_of_nat (S n) = Qc_of_nat n + 1.
Proof.
  unfold Qc_of_nat. rewrite Nat2Z.inj_succ, <- Z.add_1_r.
  apply Z2Qc_inj_add.
Qed.

Lemma Qc_of_nat_nonneg n : 0 ≤ Qc_of_nat n.
Proof.
  induction n as [|n IH]; [by rewrite Qc_of_nat_0|].
  rewrite Qc_of_nat_S. by apply Qcplus_nonneg_nonneg.
Qed.

Lemma Qc_of_nat_pos n : (0 < n)%nat → 0 < Qc_of_nat n.
Proof.
  destruct n as [|n]; [lia|]. intros _. rewrite Qc_of_nat_S.
  apply Qcplus_nonneg_pos; [apply Qc_of_nat_nonneg | done].
Qed.

Lemma Qc_of_nat_ne_0 n : (0 < n)%nat → Qc_of_nat n ≠ 0.
Proof.
  intros Hn Heq. apply Qc_of_nat_pos in Hn. rewrite Heq in Hn.
  by apply (Qclt_not_eq 0 0).
Qed.

End NumFacts.

(** ** The bisection of [np.searchsorted] *)

Lemma midpoint_range (lo hi : nat) :
  (lo < hi)%nat → (lo ≤ lo + (hi - lo) / 2 < hi)%nat.
Proof.
  intros Hlt. pose proof (Nat.div_lt (hi - lo) 2). lia.
Qed.

Section Bisect.
Variables (a : list num) (key : num).

(** The test of the loop at index [i]. *)
Let below (i : nat) : bool := Np.less (a !!! i) key.

Lemma bisect_left_S fuel lo hi :
  Np.bisect_left (S fuel) a key lo hi =
  if bool_decide (lo < hi)%nat then
    if below (lo + (hi - lo) / 2)%nat
    then Np.bisect_left fuel a key (S (lo + (hi - lo) / 2)) hi
    else Np.bisect_left fuel a key lo (lo + (hi - lo) / 2)%nat
  else lo.
Proof. reflexivity. Qed.

Lemma bisect_left_range fuel lo hi :
  (lo ≤ hi)%nat →
  (lo ≤ Np.bisect_left fuel a key lo hi ≤ hi)%nat.
Proof.
  revert lo hi. induction fuel as [|fuel IH]; intros lo hi Hle; [simpl; lia|].
  rewrite bisect_left_S. case_bool_decide as Hlt; [|lia].
  pose proof (midpoint_range lo hi Hlt) as Hmid.
  destruct (below _).
  - specialize (IH (S (lo + (hi - lo) / 2)) hi). lia.
  - specialize (IH lo (lo + (hi - lo) / 2)%nat). lia.
Qed.

(** The loop never steps over an index at which the test fails: when the
    last element is not below the key, the result is a valid index. *)
Lemma bisect_left_lt_length fuel lo hi :
  (hi ≤ length a)%nat → (lo < length a)%nat →
  below (pred (length a)) = false →
  (Np.bisect_left fuel a key lo hi < length a)%nat.
Proof.
  intros Hhi Hlo Hlast. revert lo hi Hhi Hlo.
  induction fuel as [|fuel IH]; intros lo hi Hhi Hlo; [done|].
  rewrite bisect_left_S. case_bool_decide as Hlt; [|done].
  pose proof (midpoint_range lo hi Hlt) as Hrange.
  destruct (below (lo + (hi - lo) / 2)%nat) eqn:Hmid.
  - apply IH; [done|].
    destruct (decide (lo + (hi - lo) / 2 = pred (length a))%nat) as [Heq|Hne].
    + rewrite <- Heq in Hlast. congruence.
    + lia.
  - apply IH; lia.
Qed.

(** On an array over which the test is true on a prefix and false after it,
    enough fuel makes the loop return the end of that prefix. *)
Hypothesis below_prefix : ∀ i j, (i ≤ j < length a)%nat → below j = true → below i = true.

Lemma bisect_left_spec fuel lo hi :
  (lo ≤ hi ≤ length a)%nat → (hi - lo ≤ fuel)%nat →
  (∀ i, (i < lo)%nat → below i = true) →
  (∀ i, (hi ≤ i < length a)%nat → below i = false) →
  let r := Np.bisect_left fuel a key lo hi in
  (∀ i, (i < r)%nat → below i = true) ∧
  (∀ i, (r ≤ i < length a)%nat → below i = false).
Proof.
  revert lo hi. induction fuel as [|fuel IH]; intros lo hi Hle Hfuel Hlo Hhi.
  { assert (lo = hi) as -> by lia. done. }
  rewrite bisect_left_S. case_bool_decide as Hlt.
  2:{ assert (lo = hi) as -> by lia. done. }
  pose proof (midpoint_range lo hi Hlt) as Hmid.
  set (mid := (lo + (hi - lo) / 2)%nat) in *.
  destruct (below mid) eqn:Hb.
  - apply IH; [lia | lia | | done].
    intros i Hi. apply (below_prefix i mid); [lia | done].
  - apply IH; [lia | lia | done |].
    intros i Hi. destruct (below i) eqn:Hbi; [|done].
    assert (below mid = true) as Hm by (apply (below_prefix mid i); [lia | done]).
    congruence.
Qed.

Lemma searchsorted1_spec :
  let r := Np.searchsorted1 a key in
  (r ≤ length a)%nat ∧
  (∀ i, (i < r)%nat → below i = true) ∧
  (∀ i, (r ≤ i < length a)%nat → below i = false).
Proof.
  unfold Np.searchsorted1. split.
  - pose proof (bisect_left_range (length a) 0 (length a)). lia.
  - apply bisect_left_spec; [lia | lia | lia | lia].
Qed.

End Bisect.

(** ** Sums *)

Section Sums.

Lemma foldl_add_Fin acc (qs : list Qc) :
  foldl Np.add (Fin acc) (Fin <$> qs) = Fin (acc + Qc_sum qs).
Proof.
  revert acc. induction qs as [|q qs IH]; intros acc; csimpl.
  - by rewrite Qcplus_0_r.
  - rewrite IH. f_equal. ring.
Qed.

Lemma sum_Fin (qs : list Qc) : Np.sum (Fin <$> qs) = Fin (Qc_sum qs).
Proof. unfold Np.sum. rewrite foldl_add_Fin. f_equal. ring. Qed.






Lemma Qc_sum_replicate n q : Qc_sum (replicate n q) = Qc_of_nat n * q.
Proof.
  induction n as [|n IH]; simpl.
  - rewrite Qc_of_nat_0. ring.
  - rewrite IH, Qc_of_nat_S. ring.
Qed.

Lemma Qc_sum_nonneg qs : Forall (λ q, 0 ≤ q) qs → 0 ≤ Qc_sum qs.
Proof.
  induction 1; simpl; [done|]. by apply Qcplus_nonneg_nonneg.
Qed.

Lemma nonneg_Fin (ws : list num) :
  Forall (λ w, ∃ q, w = Fin q ∧ 0 ≤ q) ws →
  ∃ qs, ws = Fin <$> qs ∧ Forall (λ q, 0 ≤ q) qs.
Proof.
  induction 1 as [|w ws (q & -> & Hq) _ (qs & -> & Hqs)]; [by exists []|].
  exists (q :: qs). split; [done|]. by constructor.
Qed.





End Sums.

(** ** Systematic resampling *)

Section Resample.
Context `{RandomSource rng}.
Implicit Types (g : rng) (s : ParticleState).

Lemma length_cumsum_from acc a : length (Np.cumsum_from acc a) = length a.
Proof. revert acc. induction a as [|x a IH]; intros acc; simpl; [done|]. by rewrite IH. Qed.

Lemma length_forced_cdf s : length (forced_cdf s) = num_particles s.
Proof.
  unfold forced_cdf, Np.cumsum, weights, num_particles.
  by rewrite length_insert, length_cumsum_from, length_fmap.
Qed.

Lemma forced_cdf_last s :
  (0 < num_particles s)%nat → forced_cdf s !!! pred (num_particles s) = Fin 1.
Proof.
  intros Hn. unfold forced_cdf. apply list_lookup_total_insert_eq.
  unfold Np.cumsum, weights. rewrite length_cumsum_from, length_fmap.
  unfold num_particles in *. lia.
Qed.

Lemma sample_offset_range g n :
  (0 < n)%nat →
  0 ≤ sample_offset g n ∧ sample_offset g n < 1 / Qc_of_nat n.
Proof.
  intros Hn. destruct (random_sample_range g) as [Hr0 Hr1].
  pose proof (Qcinv_pos _ (Qc_of_nat_pos n Hn)) as Hinv.
  unfold sample_offset, Qcdiv. split.
  - apply Qcmult_nonneg_nonneg; [done | by apply Qclt_le_weak].
  - by apply Qcmult_lt_mono_pos_r.
Qed.

Lemma sample_point_lt_1 g n j :
  (j < n)%nat → sample_point g n j < 1.
Proof.
  intros Hj. assert (0 < n)%nat as Hn by lia.
  destruct (random_sample_range g) as [_ Hr1].
  pose proof (Qc_of_nat_pos n Hn) as Hpos.
  pose proof (Qcinv_pos _ Hpos) as Hinv.
  assert (Qc_of_nat n ≠ 0) as Hne by by apply Qc_of_nat_ne_0.
  unfold sample_point, sample_offset.
  replace ((random_sample g).1 / Qc_of_nat n + Qc_of_nat j / Qc_of_nat n)
    with (((random_sample g).1 + Qc_of_nat j) * / Qc_of_nat n) by by field.
  apply Qclt_le_trans with (Qc_of_nat n * / Qc_of_nat n);
    [|by rewrite Qcmult_inv_r].
  apply Qcmult_lt_mono_pos_r; [done|].
  apply Qclt_le_trans with (1 + Qc_of_nat j).
  - by apply Qcplus_lt_mono_r.
  - rewrite Qcplus_comm, <- Qc_of_nat_S. unfold Qc_of_nat.
    apply (proj1 (Z2Qc_inj_le (Z.of_nat (S j)) (Z.of_nat n))). lia.
Qed.

Lemma sample_point_nonneg g n j :
  (0 < n)%nat → 0 ≤ sample_point g n j.
Proof.
  intros Hn. unfold sample_point.
  apply Qcplus_nonneg_nonneg; [by apply sample_offset_range|].
  apply Qcmult_nonneg_nonneg; [apply Qc_of_nat_nonneg|].
  apply Qclt_le_weak, Qcinv_pos. by apply Qc_of_nat_pos.
Qed.

(** With at least one particle the branch computes its arrays without an
    exception, and they are the ones of the specification. *)
Lemma resample_index_eq g s :
  (0 < num_particles s)%nat →
  resample_index g s =
  Ok (forced_cdf s, sample_points g (num_particles s),
      Np.searchsorted (forced_cdf s) (sample_points g (num_particles s)),
      (random_sample g).2).
Proof.
  intros Hn. unfold resample_index, Np.set_last.
  assert (length (Np.cumsum (weights s)) = num_particles s) as Hlen.
  { unfold Np.cumsum, weights, num_particles.
    by rewrite length_cumsum_from, length_fmap. }
  destruct (Np.cumsum (weights s)) as [|c cs] eqn:Hcdf; [simpl in Hlen; lia|].
  rewrite Hlen. unfold py_truediv.
  rewrite bool_decide_eq_false_2 by lia. unfold uniform. csimpl.
  destruct (random_sample g) as [r g'] eqn:Hdraw. csimpl.
  assert (Np.affine (Fin (0 + (Qc_of_nat 1 / Qc_of_nat (num_particles s) + - 0) * r))
            (Fin (Qc_of_nat 1 / Qc_of_nat (num_particles s)))
            (Np.arange (num_particles s))
          = sample_points g (num_particles s)) as ->.
  { unfold Np.affine, Np.arange, sample_points. rewrite <- list_fmap_compose.
    apply list_fmap_ext. intros _ j _. simpl. f_equal.
    unfold sample_point, sample_offset. rewrite Hdraw, Qc_of_nat_1. simpl.
    pose proof (Qc_of_nat_ne_0 _ Hn). by field. }
  unfold forced_cdf. by rewrite Hcdf.
Qed.

Lemma searchsorted_in_range g s :
  (0 < num_particles s)%nat →
  Forall (λ i, (i < num_particles s)%nat)
         (Np.searchsorted (forced_cdf s) (sample_points g (num_particles s))).
Proof.
  intros Hn. unfold Np.searchsorted, sample_points.
  rewrite <- list_fmap_compose. apply Forall_fmap, list.Forall_forall.
  intros j Hj%elem_of_seq. simpl. unfold Np.searchsorted1.
  pose proof (bisect_left_lt_length (forced_cdf s)
                (Fin (sample_point g (num_particles s) j))
                (length (forced_cdf s)) 0 (length (forced_cdf s))) as Hlt.
  rewrite !length_forced_cdf in *. apply Hlt; [done..|].
  rewrite forced_cdf_last, less_Fin by done.
  apply bool_decide_eq_false_2, Qcle_not_lt, Qclt_le_weak.
  apply sample_point_lt_1. lia.
Qed.

Lemma take_columns_Ok {A} `{!Inhabited A} (cols : list A) (index : list nat) :
  Forall (λ i, (i < length cols)%nat) index →
  Np.take_columns cols index = Ok ((λ i, cols !!! i) <$> index).
Proof.
  induction 1 as [|i index Hi _ IH]; csimpl; [done|].
  rewrite (list_lookup_lookup_total_lt cols i Hi), IH. done.
Qed.

Lemma resample_needed_nonempty s :
  resample_needed s = true → (0 < num_particles s)%nat.
Proof.
  unfold resample_needed, ess, weights, num_particles.
  destruct (particles s) as [|p ps]; [|simpl; lia].
  by vm_compute.
Qed.

(** The two outcomes of [resample]. *)
Lemma resample_skipped g s :
  resample_needed s = false → resample g s = Ok (s, g).
Proof. unfold resample. by intros ->. Qed.

Lemma resample_triggered g s :
  resample_needed s = true →
  resample g s =
  Ok (new_ParticleState
        ((λ i, mkParticle (stacked_states s !!! i)
                          (Fin (1 / Qc_of_nat (num_particles s))))
         <$> Np.searchsorted (forced_cdf s) (sample_points g (num_particles s))),
      (random_sample g).2).
Proof.
  intros Hneed. pose proof (resample_needed_nonempty s Hneed) as Hn.
  unfold resample. rewrite Hneed, resample_index_eq by done. csimpl.
  rewrite take_columns_Ok.
  2:{ unfold stacked_states. rewrite length_fmap. by apply searchsorted_in_range. }
  csimpl. unfold py_truediv. rewrite bool_decide_eq_false_2 by lia. csimpl.
  by rewrite <- list_fmap_compose, Qc_of_nat_1.
Qed.

Lemma resample_total g s : ∃ s' g', resample g s = Ok (s', g').
Proof.
  destruct (resample_needed s) eqn:Hneed.
  - rewrite resample_triggered by done. by eexists _, _.
  - rewrite resample_skipped by done. by eexists _, _.
Qed.

End Resample.

(** ** The selected indices on non-negative weights *)

Section Selection.
Context `{RandomSource rng}.
Implicit Types (g : rng) (s : ParticleState).

Lemma nonneg_weights_Fin s :
  nonneg_weights s → ∃ qs, weights s = Fin <$> qs ∧ Forall (λ q, 0 ≤ q) qs.
Proof. apply nonneg_Fin. Qed.

Lemma Qc_sum_app l k : Qc_sum (l ++ k) = Qc_sum l + Qc_sum k.
Proof. induction l as [|q l IH]; simpl; [ring|]. rewrite IH. ring. Qed.

Lemma Qc_sum_take_mono qs i j :
  Forall (λ q, 0 ≤ q) qs → (i ≤ j)%nat →
  Qc_sum (take i qs) ≤ Qc_sum (take j qs).
Proof.
  intros Hqs Hij. replace j with (i + (j - i))%nat by lia.
  rewrite <- take_take_drop, Qc_sum_app.
  rewrite <- (Qcplus_0_r (Qc_sum (take i qs))) at 1.
  apply Qcplus_le_mono_l, Qc_sum_nonneg.
  by apply Forall_take, Forall_drop.
Qed.

Lemma cumsum_from_lookup acc a i :
  (i < length a)%nat →
  Np.cumsum_from acc a !! i = Some (foldl Np.add acc (take (S i) a)).
Proof.
  revert acc i. induction a as [|x a IH]; intros acc i Hi; simpl in *; [lia|].
  destruct i as [|i]; [done|]. simpl. apply IH. lia.
Qed.

(** Entry [i] of the cumulative sum is the sum of the first [i + 1] weights. *)
Lemma cumsum_lookup a i :
  (i < length a)%nat → Np.cumsum a !! i = Some (Np.sum (take (S i) a)).
Proof. apply cumsum_from_lookup. Qed.

Lemma forced_cdf_lookup s i :
  (i < num_particles s)%nat →
  forced_cdf s !! i =
  Some (if decide (i = pred (num_particles s)) then Fin 1
        else Np.sum (take (S i) (weights s))).
Proof.
  intros Hi. unfold forced_cdf.
  assert (length (weights s) = num_particles s) as Hlen
    by (unfold weights, num_particles; by rewrite length_fmap).
  case_decide as Heq.
  - subst i. apply list_lookup_insert_eq.
    unfold Np.cumsum. rewrite length_cumsum_from. lia.
  - rewrite list_lookup_insert_ne by done. apply cumsum_lookup. lia.
Qed.

Lemma forced_cdf_lookup_total s i :
  (i < num_particles s)%nat →
  forced_cdf s !!! i =
  if decide (i = pred (num_particles s)) then Fin 1
  else Np.sum (take (S i) (weights s)).
Proof. intros Hi. by apply list_lookup_total_correct, forced_cdf_lookup. Qed.

(** On non-negative weights the test of the bisection, [cdf[i] < u], holds
    on a prefix of the forced cumulative weights for every key below one. *)
Lemma forced_cdf_below_prefix s u i j :
  nonneg_weights s → u < 1 → (i ≤ j < num_particles s)%nat →
  Np.less (forced_cdf s !!! j) (Fin u) = true →
  Np.less (forced_cdf s !!! i) (Fin u) = true.
Proof.
  intros (qs & Hws & Hqs)%nonneg_weights_Fin Hu [Hij Hj].
  rewrite !forced_cdf_lookup_total by lia.
  rewrite Hws. case_decide as Hjlast.
  { rewrite less_Fin. intros Hlt%bool_decide_eq_true.
    by destruct (Qclt_not_le _ _ Hlt); apply Qclt_le_weak. }
  rewrite decide_False by lia.
  rewrite <- !fmap_take, !sum_Fin, !less_Fin.
  intros Hlt%bool_decide_eq_true. apply bool_decide_eq_true.
  eapply Qcle_lt_trans; [|done]. apply Qc_sum_take_mono; [done | lia].
Qed.

Lemma ge_Fin_less (x : num) u :
  is_Fin x → Np.ge x (Fin u) = negb (Np.less x (Fin u)).
Proof.
  intros [c ->]. rewrite less_Fin. unfold Np.ge, Np.le.
  destruct (decide (c < u)) as [Hlt|Hge].
  - rewrite (bool_decide_eq_true_2 (c < u)) by done.
    by apply bool_decide_eq_false_2, Qclt_not_le.
  - rewrite (bool_decide_eq_false_2 (c < u)) by done.
    by apply bool_decide_eq_true_2, Qcnot_lt_le.
Qed.

Lemma forced_cdf_is_Fin s i :
  nonneg_weights s → (i < num_particles s)%nat → is_Fin (forced_cdf s !!! i).
Proof.
  intros (qs & Hws & _)%nonneg_weights_Fin Hi.
  rewrite forced_cdf_lookup_total by done.
  case_decide; [by eexists|].
  rewrite Hws, <- fmap_take, sum_Fin. by eexists.
Qed.

(** The bisection returns the first index whose forced cumulative weight
    reaches the sample point. *)
Lemma searchsorted1_first_index g s j :
  nonneg_weights s → (j < num_particles s)%nat →
  first_index_ge (forced_cdf s) (Fin (sample_point g (num_particles s) j))
    (Np.searchsorted1 (forced_cdf s) (Fin (sample_point g (num_particles s) j))).
Proof.
  intros Hnn Hj. set (n := num_particles s) in *.
  pose proof (sample_point_lt_1 g n j Hj) as Hu.
  set (u := sample_point g n j) in *.
  assert (0 < n)%nat as Hn by lia.
  destruct (searchsorted1_spec (forced_cdf s) (Fin u)) as (_ & Hbelow & Hrest).
  { intros i k Hik. rewrite length_forced_cdf in Hik.
    by apply forced_cdf_below_prefix. }
  assert (Np.searchsorted1 (forced_cdf s) (Fin u) < n)%nat as Hlt.
  { pose proof (searchsorted_in_range g s Hn) as Hall.
    unfold Np.searchsorted, sample_points in Hall.
    rewrite <- list_fmap_compose, Forall_fmap, list.Forall_forall in Hall.
    apply (Hall j). apply elem_of_seq. lia. }
  rewrite length_forced_cdf in Hrest.
  split; [by rewrite length_forced_cdf|]. split.
  - rewrite ge_Fin_less by by apply forced_cdf_is_Fin.
    rewrite Hrest; [done | lia].
  - intros i' Hi'. rewrite ge_Fin_less by (apply forced_cdf_is_Fin; [done | lia]).
    by rewrite Hbelow.
Qed.

End Selection.

(** ** Reweighting *)

Section Reweight.
Implicit Types (s : ParticleState) (ws : list num).

Lemma fmap_zip_with_both {A B C D} (f : C → D) (h : A → B → C) (l : list A) (k : list B) :
  f <$> zip_with h l k = zip_with (λ x y, f (h x y)) l k.
Proof.
  revert k. induction l as [|x l IH]; intros [|y k]; csimpl; [done..|].
  by rewrite IH.
Qed.

Lemma particles_reweight s ws :
  particles (reweight s ws) =
  zip_with (λ p w, mkParticle (state_vector p) (normalised (Np.sum ws) w))
           (particles s) ws.
Proof.
  unfold reweight, normalised, new_ParticleState. cbn [particles].
  destruct (Np.gt (Np.sum ws) (Fin 0)); [|done].
  by rewrite fmap_zip_with_both.
Qed.

Lemma weight_zip_with (f : num → num) (ps : list Particle) ws :
  length ws = length ps →
  weight <$> zip_with (λ p w, mkParticle (state_vector p) (f w)) ps ws = f <$> ws.
Proof.
  revert ws. induction ps as [|p ps IH]; intros [|w ws] Hlen;
    simplify_eq/=; [done|]. f_equal. by apply IH.
Qed.

Lemma state_vector_zip_with (f : num → num) (ps : list Particle) ws :
  length ws = length ps →
  state_vector <$> zip_with (λ p w, mkParticle (state_vector p) (f w)) ps ws
  = state_vector <$> ps.
Proof.
  revert ws. induction ps as [|p ps IH]; intros [|w ws] Hlen;
    simplify_eq/=; [done|]. f_equal. by apply IH.
Qed.

Lemma weight_zip_with_states (cols : list (list num)) (ps : list Particle) :
  length cols = length ps →
  weight <$> zip_with (λ state p, mkParticle state (weight p)) cols ps
  = weight <$> ps.
Proof.
  revert cols. induction ps as [|p ps IH]; intros [|c cols] Hlen;
    simplify_eq/=; [done|]. f_equal. by apply IH.
Qed.

Lemma state_vector_zip_with_states (cols : list (list num)) (ps : list Particle) :
  length cols = length ps →
  state_vector <$> zip_with (λ state p, mkParticle state (weight p)) cols ps
  = cols.
Proof.
  revert cols. induction ps as [|p ps IH]; intros [|c cols] Hlen;
    simplify_eq/=; [done|]. f_equal. by apply IH.
Qed.

Lemma weights_reweight s ws :
  length ws = num_particles s →
  weights (reweight s ws) = normalised (Np.sum ws) <$> ws.
Proof.
  intros Hlen. unfold weights. rewrite particles_reweight.
  by apply weight_zip_with.
Qed.

Lemma stacked_states_reweight s ws :
  length ws = num_particles s →
  stacked_states (reweight s ws) = stacked_states s.
Proof.
  intros Hlen. unfold stacked_states. rewrite particles_reweight.
  by apply state_vector_zip_with.
Qed.


Lemma lookup_reweight s ws i p w :
  particles s !! i = Some p → ws !! i = Some w →
  particles (reweight s ws) !! i =
  Some (mkParticle (state_vector p) (normalised (Np.sum ws) w)).
Proof.
  intros Hp Hw. rewrite particles_reweight, lookup_zip_with, Hp. simpl.
  by rewrite Hw.
Qed.

Lemma mul_arrays_same_length a b :
  length a = length b → Np.mul_arrays a b = Ok (zip_with Np.mul a b).
Proof. intros Hlen. unfold Np.mul_arrays. by rewrite bool_decide_eq_true_2. Qed.

End Reweight.

(** ** The expected likelihoods *)

Section Mean.
Context `{RandomSource rng}.
Implicit Types (self : ParticleFilter.t rng) (s : ParticleState).

Lemma length_foldl_zip_add n acc rows :
  length acc = n → Forall (λ row, length row = n) rows →
  length (foldl (zip_with Np.add) acc rows) = n.
Proof.
  intros Hacc Hrows. revert acc Hacc.
  induction Hrows as [|row rows Hrow _ IH]; intros acc Hacc; simpl; [done|].
  apply IH. rewrite length_zip_with. lia.
Qed.

Lemma lookup_foldl_zip_add n acc rows i :
  length acc = n → Forall (λ row, length row = n) rows → (i < n)%nat →
  foldl (zip_with Np.add) acc rows !! i =
  Some (foldl Np.add (acc !!! i) (column i rows)).
Proof.
  intros Hacc Hrows Hi. revert acc Hacc.
  induction Hrows as [|row rows Hrow _ IH]; intros acc Hacc; csimpl.
  - apply list_lookup_lookup_total_lt. lia.
  - rewrite IH by (rewrite length_zip_with; lia). do 2 f_equal.
    apply list_lookup_total_correct. rewrite lookup_zip_with.
    rewrite (list_lookup_lookup_total_lt acc i) by lia.
    by rewrite (list_lookup_lookup_total_lt row i) by lia.
Qed.

Lemma length_mean_axis0 n rows :
  Forall (λ row, length row = n) rows → length (Np.mean_axis0 n rows) = n.
Proof.
  intros Hrows. unfold Np.mean_axis0. rewrite length_fmap.
  apply length_foldl_zip_add; [apply length_replicate | done].
Qed.

(** Entry [i] of the column-wise mean is the arithmetic mean of column [i]. *)
Lemma mean_axis0_lookup n rows i :
  Forall (λ row, length row = n) rows → (i < n)%nat →
  Np.mean_axis0 n rows !! i = Some (arithmetic_mean (column i rows)).
Proof.
  intros Hrows Hi. unfold Np.mean_axis0, arithmetic_mean.
  rewrite list_lookup_fmap.
  rewrite (lookup_foldl_zip_add n) by (done || apply length_replicate).
  rewrite lookup_total_replicate_2 by done.
  unfold column. by rewrite length_fmap.
Qed.

Lemma mean_axis0_singleton n row :
  length row = n → Np.mean_axis0 n [row] = row.
Proof.
  intros Hlen. apply list_eq. intros i.
  destruct (decide (i < n)%nat) as [Hi|Hi].
  - rewrite (mean_axis0_lookup n) by (done || by repeat constructor).
    unfold arithmetic_mean, column, Np.sum. cbn [fmap list_fmap foldl length].
    rewrite add_0_l, Qc_of_nat_1, div_1_r.
    symmetry. apply list_lookup_lookup_total_lt. lia.
  - rewrite !lookup_ge_None_2; [done | lia |].
    rewrite length_mean_axis0 by by repeat constructor. lia.
Qed.

Lemma fill_rows_conforming self s a i zs :
  measurement_conforms self s → Forall (likelihood_conforms self s) zs →
  (i + length zs = length a)%nat →
  ExpectedLikelihoodParticleFilter.fill_rows self
    (mm_function (measurement_model self) s) a i zs
  = Ok (take i a ++ (likelihoods_of self s <$> zs)).
Proof.
  intros Hmm Hzs. revert a i.
  induction Hzs as [|z zs Hz _ IH]; intros a i Hlen; csimpl.
  - rewrite app_nil_r, take_ge; [done | simpl in Hlen; lia].
  - unfold Np.assign_row. fold (likelihoods_of self s z).
    rewrite bool_decide_eq_true_2 by by rewrite Hz, Hmm. csimpl.
    rewrite IH by (rewrite length_insert; simpl in Hlen; lia).
    f_equal. rewrite (take_S_r _ _ (likelihoods_of self s z)).
    + rewrite take_insert_ge by lia. by rewrite <- app_assoc.
    + apply list_lookup_insert_eq. simpl in Hlen. lia.
Qed.

Lemma association_probabilities_conforming self s zs :
  measurement_conforms self s → Forall (likelihood_conforms self s) zs →
  ExpectedLikelihoodParticleFilter.association_probabilities self
    (mm_function (measurement_model self) s) zs
  = Ok (likelihoods_of self s <$> zs).
Proof.
  intros Hmm Hzs. unfold ExpectedLikelihoodParticleFilter.association_probabilities.
  rewrite (fill_rows_conforming self s) by
    (done || (unfold Np.zeros; by rewrite length_replicate)).
  by rewrite take_0.
Qed.

End Mean.

(** ** Properties of the filter *)

Section Updates.
Context `{RandomSource rng}.
Implicit Types (self : ParticleFilter.t rng) (g : rng) (s : ParticleState).

Lemma length_weights s : length (weights s) = num_particles s.
Proof. unfold weights, num_particles. apply length_fmap. Qed.


Lemma bootstrap_new_weights_conforming self s z :
  likelihood_conforms self s z →
  BootstrapParticleFilter.new_weights self s z
  = Ok (zip_with Np.mul (weights s) (likelihoods_of self s z)).
Proof.
  intros Hz. unfold BootstrapParticleFilter.new_weights.
  apply mul_arrays_same_length.
  fold (weights s). rewrite length_weights. symmetry. apply Hz.
Qed.

Lemma expected_likelihoods_conforming self s zs :
  measurement_conforms self s → Forall (likelihood_conforms self s) zs →
  ExpectedLikelihoodParticleFilter.expected_likelihoods self s zs
  = Ok (Np.mean_axis0 (num_particles s) (likelihoods_of self s <$> zs)).
Proof.
  intros Hmm Hzs. unfold ExpectedLikelihoodParticleFilter.expected_likelihoods.
  rewrite association_probabilities_conforming by done. csimpl.
  by rewrite Hmm.
Qed.

Lemma likelihood_rows_shape self s zs :
  Forall (likelihood_conforms self s) zs →
  Forall (λ row, length row = num_particles s) (likelihoods_of self s <$> zs).
Proof. intros Hzs. by apply Forall_fmap. Qed.

Lemma expected_new_weights_conforming self s zs :
  measurement_conforms self s → Forall (likelihood_conforms self s) zs →
  ExpectedLikelihoodParticleFilter.new_weights self s zs
  = Ok (zip_with Np.mul (weights s)
          (Np.mean_axis0 (num_particles s) (likelihoods_of self s <$> zs))).
Proof.
  intros Hmm Hzs. unfold ExpectedLikelihoodParticleFilter.new_weights.
  rewrite expected_likelihoods_conforming by done. csimpl.
  apply mul_arrays_same_length. fold (weights s).
  rewrite length_weights, length_mean_axis0; [done|].
  by apply likelihood_rows_shape.
Qed.



Lemma predict_Ok self g s (time_interval : num) cols g' :
  tm_function (transition_model self) s time_interval g = Ok (cols, g') →
  predict self g s time_interval
  = Ok (new_ParticleState
          (zip_with (λ state p, mkParticle state (weight p)) cols (particles s)),
        g').
Proof. intros Htm. unfold predict. by rewrite Htm. Qed.





Lemma weights_resampled (f : nat → list num) (w : num) (index : list nat) :
  weight <$> ((λ i, mkParticle (f i) w) <$> index) = replicate (length index) w.
Proof. induction index as [|i index IH]; csimpl; [done|]. by rewrite IH. Qed.

Lemma length_searchsorted g s :
  length (Np.searchsorted (forced_cdf s) (sample_points g (num_particles s)))
  = num_particles s.
Proof.
  unfold Np.searchsorted, sample_points. by rewrite !length_fmap, length_seq.
Qed.

End Updates.

Section Claims.
Context `{RandomSource rng}.
Implicit Types (self : ParticleFilter.t rng) (g : rng) (s : ParticleState).

(** C6.  Predict keeps every weight and the order of the particles: when the
    transition model, called once on the whole particle state, returns one
    new state vector per particle, particle [i] of the result carries new
    state vector [i] and the weight of input particle [i]. *)
Theorem predict_preserves_weights self g s (time_interval : num) cols g' :
  tm_function (transition_model self) s time_interval g = Ok (cols, g') →
  length cols = num_particles s →
  ∃ s', predict self g s time_interval = Ok (s', g')
        ∧ weights s' = weights s
        ∧ stacked_states s' = cols
        ∧ ∀ i p, particles s !! i = Some p →
            ∃ c, cols !! i = Some c
                 ∧ particles s' !! i = Some (mkParticle c (weight p)).
Proof.
  intros Htm Hlen. rewrite (predict_Ok self g s time_interval cols g' Htm).
  eexists. split; [done|]. unfold weights, stacked_states, new_ParticleState.
  cbn [particles]. split_and!.
  - by apply weight_zip_with_states.
  - by apply state_vector_zip_with_states.
  - intros i p Hp.
    destruct (lookup_lt_is_Some_2 cols i) as [c Hc].
    { rewrite Hlen. by eapply lookup_lt_Some. }
    exists c. split; [done|]. by rewrite lookup_zip_with, Hc; simpl; rewrite Hp.
Qed.



(** C7.  On a measurement set of size one the expected-likelihood update is
    the bootstrap update on that measurement: the new weights are the same,
    and so are the particle state and the generator that are returned. *)
Theorem expected_singleton_is_bootstrap self g s z :
  measurement_conforms self s →
  likelihood_conforms self s z →
  ExpectedLikelihoodParticleFilter.new_weights self s [z]
  = BootstrapParticleFilter.new_weights self s z
  ∧ ExpectedLikelihoodParticleFilter.update self g s [z]
    = BootstrapParticleFilter.update self g s z.
Proof.
  intros Hmm Hz.
  assert (ExpectedLikelihoodParticleFilter.new_weights self s [z]
          = BootstrapParticleFilter.new_weights self s z) as Hnw.
  { rewrite expected_new_weights_conforming by (done || by repeat constructor).
    rewrite bootstrap_new_weights_conforming by done.
    cbn [fmap list_fmap]. by rewrite mean_axis0_singleton. }
  split; [done|].
  unfold ExpectedLikelihoodParticleFilter.update, BootstrapParticleFilter.update.
  by rewrite Hnw.
Qed.






End Claims.

(** ** The properties at the examples *)


Lemma example_likelihood_conforms :
  likelihood_conforms example_filter example_state example_detection.
Proof. reflexivity. Qed.

Lemma example_measurement_conforms :
  measurement_conforms example_filter example_state.
Proof. reflexivity. Qed.




Lemma peaked_state_nonneg : nonneg_weights peaked_state.
Proof. repeat constructor; by eexists. Qed.


(** The scenario of the specification: weights 0.2, 0.3, 0.5 and likelihoods
    0.1, 0.1, 0.8 give the products 0.02, 0.03, 0.4; their normalisation has
    an effective sample size below 1.5, so the update resamples, here to the
    first particle once and the third twice, each with weight 1/3. *)
Example end_to_end_scenario :
  match BootstrapParticleFilter.new_weights example_filter example_state
          example_detection,
        BootstrapParticleFilter.update example_filter 0%nat example_state
          example_detection
  with
  | Ok nw, Ok (s', _) =>
      rationals nw = [Some (1 # 50)%Q; Some (3 # 100)%Q; Some (2 # 5)%Q]
      ∧ rationals (weights s') = [Some (1 # 3)%Q; Some (1 # 3)%Q; Some (1 # 3)%Q]
      ∧ rationals <$> stacked_states s'
        = [[Some 0%Q; Some 0%Q]; [Some 2%Q; Some 0%Q]; [Some 2%Q; Some 0%Q]]
  | _, _ => False
  end.
Proof. by vm_compute. Qed.

Lemma predict_preserves_weights_witness :
  ∃ s', predict example_filter 0%nat example_state (ratio 1 1) = Ok (s', 0%nat)
        ∧ weights s' = weights example_state
        ∧ stacked_states s' = stacked_states example_state.
Proof.
  destruct (predict_preserves_weights example_filter 0%nat example_state (ratio 1 1)
              (stacked_states example_state) 0%nat eq_refl eq_refl)
    as (s' & Hs' & Hw & Hsv & _).
  exists s'. exact (conj Hs' (conj Hw Hsv)).
Defined.




Lemma expected_singleton_is_bootstrap_witness :
  ExpectedLikelihoodParticleFilter.update example_filter 0%nat example_state
    [example_detection]
  = BootstrapParticleFilter.update example_filter 0%nat example_state
      example_detection.
Proof.
  exact (proj2 (expected_singleton_is_bootstrap example_filter 0%nat example_state
                  example_detection example_measurement_conforms
                  example_likelihood_conforms)).
Defined.








(** * Further properties of the code *)

From Stdlib Require Import Lqa.

(** Inequalities between canonical rationals are settled on the rationals
    they stand for. *)
Lemma this_plus (x y : Qc) : (this (x + y) == this x + this y)%Q.
Proof. unfold Qcplus. simpl. apply Qred_correct. Qed.

Lemma this_mult (x y : Qc) : (this (x * y) == this x * this y)%Q.
Proof. unfold Qcmult. simpl. apply Qred_correct. Qed.

Lemma this_opp (x : Qc) : (this (- x) == - this x)%Q.
Proof. unfold Qcopp. simpl. apply Qred_correct. Qed.

Lemma this_minus (x y : Qc) : (this (x - y) == this x - this y)%Q.
Proof. unfold Qcminus. rewrite this_plus, this_opp. reflexivity. Qed.

Lemma this_inv (x : Qc) : (this (/ x) == / this x)%Q.
Proof. unfold Qcinv. simpl. apply Qred_correct. Qed.

Lemma this_div (x y : Qc) : (this (x / y) == this x / this y)%Q.
Proof. unfold Qcdiv. rewrite this_mult, this_inv. reflexivity. Qed.


Ltac to_Q :=
  unfold Qclt, Qcle in *;
  repeat first
    [ rewrite this_plus in * | rewrite this_mult in * | rewrite this_minus in *
    | rewrite this_opp in * | rewrite this_div in * | rewrite this_inv in * ];
  change (this 0) with 0%Q in *; change (this 1) with 1%Q in *.

Section Further.
Context `{RandomSource rng}.
Implicit Types (self : ParticleFilter.t rng) (g : rng) (s : ParticleState).


(** *** The loop *)





(** *** Weights that are not numbers *)

Lemma mul_NaN_l x : Np.mul NaN x = NaN.
Proof. by destruct x. Qed.

Lemma mul_NaN_r x : Np.mul x NaN = NaN.
Proof. by destruct x. Qed.

Lemma foldl_add_NaN (ws : list num) : foldl Np.add NaN ws = NaN.
Proof. induction ws as [|w ws IH]; [done|]. simpl. by destruct w. Qed.

Lemma sum_all_nan (ws : list num) :
  ws ≠ [] → Forall (λ w, w = NaN) ws → Np.sum ws = NaN.
Proof.
  intros Hne Hall. destruct Hall as [|w ws -> _]; [done|].
  unfold Np.sum. simpl. apply foldl_add_NaN.
Qed.

Lemma gt_sum_all_nan (ws : list num) :
  Forall (λ w, w = NaN) ws → Np.gt (Np.sum ws) (Fin 0) = false.
Proof.
  intros Hall. destruct ws as [|w ws]; [done|].
  by rewrite sum_all_nan.
Qed.

Lemma resample_needed_all_nan s : all_nan s → resample_needed s = false.
Proof.
  intros Hall. destruct (resample_needed s) eqn:Hneed; [|done].
  pose proof (resample_needed_nonempty s Hneed) as Hn.
  unfold resample_needed, ess in Hneed.
  rewrite (sum_all_nan (Np.square (weights s))) in Hneed; [done| |].
  - rewrite <- length_weights in Hn. unfold Np.square.
    destruct (weights s); [simpl in Hn; lia | done].
  - unfold Np.square. apply Forall_fmap. revert Hall. apply Forall_impl.
    by intros w ->.
Qed.

(** New weights that are all NaN are neither normalised nor resampled. *)
Lemma resample_reweight_all_nan g s nw :
  length nw = num_particles s → Forall (λ w, w = NaN) nw →
  resample g (reweight s nw) = Ok (reweight s nw, g)
  ∧ weights (reweight s nw) = nw.
Proof.
  intros Hlen Hall.
  assert (weights (reweight s nw) = nw) as Hw.
  { rewrite weights_reweight by done. unfold normalised.
    rewrite gt_sum_all_nan by done. apply list_fmap_id. }
  split; [|done]. apply resample_skipped, resample_needed_all_nan.
  unfold all_nan. by rewrite Hw.
Qed.

Lemma mean_axis0_no_rows n : Np.mean_axis0 n [] = replicate n NaN.
Proof.
  unfold Np.mean_axis0. cbn [foldl length]. by rewrite fmap_replicate.
Qed.

Lemma zip_with_mul_all_nan_r (a : list num) n :
  length a = n → zip_with Np.mul a (replicate n NaN) = replicate n NaN.
Proof.
  intros <-. induction a as [|x a IH]; simpl; [done|].
  by rewrite mul_NaN_r, IH.
Qed.

Lemma zip_with_mul_all_nan_l (a b : list num) :
  Forall (λ w, w = NaN) a → Forall (λ w, w = NaN) (zip_with Np.mul a b).
Proof.
  intros Ha. revert b. induction Ha as [|x a -> _ IH]; intros [|y b]; simpl;
    [done..|]. constructor; [by destruct y | apply IH].
Qed.

(** The expected-likelihood update when every new weight is a NaN. *)
Lemma expected_update_nan_new_weights self g s zs :
  measurement_conforms self s → Forall (likelihood_conforms self s) zs →
  let nw := zip_with Np.mul (weights s)
              (Np.mean_axis0 (num_particles s) (likelihoods_of self s <$> zs)) in
  Forall (λ w, w = NaN) nw →
  ∃ s', ExpectedLikelihoodParticleFilter.update self g s zs = Ok (s', g)
        ∧ stacked_states s' = stacked_states s
        ∧ weights s' = nw.
Proof.
  intros Hmm Hzs nw Hnan. unfold ExpectedLikelihoodParticleFilter.update.
  rewrite expected_new_weights_conforming by done. csimpl. fold nw.
  assert (length nw = num_particles s) as Hlen.
  { unfold nw. rewrite length_zip_with, length_weights, length_mean_axis0.
    - lia.
    - by apply likelihood_rows_shape. }
  destruct (resample_reweight_all_nan g s nw Hlen Hnan) as [Hres Hw].
  eexists. split; [done|]. split; [|done].
  by apply stacked_states_reweight.
Qed.

Lemma new_weights_no_measurements self s :
  zip_with Np.mul (weights s)
    (Np.mean_axis0 (num_particles s) (likelihoods_of self s <$> []))
  = replicate (num_particles s) NaN.
Proof.
  cbn [fmap list_fmap]. rewrite mean_axis0_no_rows.
  apply zip_with_mul_all_nan_r, length_weights.
Qed.

(** X2.  An update with no measurement at all raises nothing: it keeps the state
    vectors and the generator, and turns every weight into a NaN. *)
Theorem expected_update_no_measurements self g s :
  measurement_conforms self s →
  ∃ s', ExpectedLikelihoodParticleFilter.update self g s [] = Ok (s', g)
        ∧ stacked_states s' = stacked_states s
        ∧ weights s' = replicate (num_particles s) NaN.
Proof.
  intros Hmm.
  destruct (expected_update_nan_new_weights self g s [] Hmm (Forall_nil_2 _))
    as (s' & Hupd & Hsv & Hw).
  { rewrite new_weights_no_measurements. by apply Forall_replicate. }
  exists s'. split; [done|]. split; [done|].
  by rewrite Hw, new_weights_no_measurements.
Qed.

(** X3.  Once every weight is a NaN, an update with any measurements keeps them
    so: it raises nothing, normalises nothing and resamples nothing. *)
Theorem expected_update_all_nan self g s zs :
  measurement_conforms self s → Forall (likelihood_conforms self s) zs →
  all_nan s →
  ∃ s', ExpectedLikelihoodParticleFilter.update self g s zs = Ok (s', g)
        ∧ stacked_states s' = stacked_states s
        ∧ all_nan s'.
Proof.
  intros Hmm Hzs Hnan.
  destruct (expected_update_nan_new_weights self g s zs Hmm Hzs)
    as (s' & Hupd & Hsv & Hw).
  { by apply zip_with_mul_all_nan_l. }
  exists s'. split; [done|]. split; [done|].
  unfold all_nan. rewrite Hw. by apply zip_with_mul_all_nan_l.
Qed.

(** *** A run that meets an empty measurement set *)





(** *** Resampling twice *)

Lemma resample_needed_uniform s n :
  (0 < n)%nat →
  weights s = replicate n (Fin (1 / Qc_of_nat n)) →
  resample_needed s = false.
Proof.
  intros Hn Hw. unfold resample_needed, ess.
  assert (num_particles s = n) as ->
    by by rewrite <- length_weights, Hw, length_replicate.
  rewrite Hw. unfold Np.square. rewrite fmap_replicate. cbn [Np.mul].
  rewrite <- fmap_replicate, sum_Fin, Qc_sum_replicate.
  pose proof (Qc_of_nat_pos n Hn) as Hpos.
  pose proof (Qc_of_nat_ne_0 n Hn) as Hne.
  set (x := Qc_of_nat n) in *.
  replace (x * (1 / x * (1 / x))) with (1 / x) by by field.
  unfold Np.div. rewrite bool_decide_eq_false_2.
  2:{ intros H0. pose proof (Qcinv_pos x Hpos) as Hinv.
      unfold Qcdiv in H0. rewrite Qcmult_1_l in H0. rewrite H0 in Hinv.
      by apply (Qclt_not_eq 0 0). }
  replace (1 / (1 / x)) with x by by field.
  unfold Np.lt. apply bool_decide_eq_false_2.
  intros Hlt. clear Hne Hw. clearbody x. to_Q.
  change (this (Qc_of_nat 2)) with 2%Q in Hlt.
  unfold Qdiv in Hlt. change (/ 2)%Q with (1 # 2)%Q in Hlt. lra.
Qed.

(** X5.  Particles that all weigh [1 / N], as the scripts weigh their prior, are
    not resampled: [resample] returns them as they are and draws nothing. *)
Theorem resample_uniform_skipped g s :
  (0 < num_particles s)%nat →
  weights s
  = replicate (num_particles s) (Fin (1 / Qc_of_nat (num_particles s))) →
  resample_needed s = false ∧ resample g s = Ok (s, g).
Proof.
  intros Hn Hw.
  pose proof (resample_needed_uniform s (num_particles s) Hn Hw) as Hneed.
  split; [done|]. by apply resample_skipped.
Qed.

(** X6.  A particle state that [resample] has returned is left as it is by a
    second [resample], in any state of the generator, which is not drawn
    from. *)
Theorem resample_twice g s s' g1 g2 :
  resample g s = Ok (s', g1) → resample g2 s' = Ok (s', g2).
Proof.
  intros Hres. apply resample_skipped.
  destruct (resample_needed s) eqn:Hneed.
  - pose proof (resample_needed_nonempty s Hneed) as Hn.
    rewrite resample_triggered in Hres by done. injection Hres as <- _.
    apply (resample_needed_uniform _ (num_particles s)); [done|].
    unfold weights, new_ParticleState. cbn [particles].
    by rewrite weights_resampled, length_searchsorted.
  - rewrite resample_skipped in Hres by done. by injection Hres as <- _.
Qed.

(** *** The order of the measurements *)






(** *** Likelihoods known up to a factor *)







(** *** Arrays of the wrong shape *)

(** X9.  A likelihood vector whose length is neither the number of particles nor
    one cannot be multiplied with the weights: the bootstrap update of two or
    more particles, or of none, raises a [ValueError]. *)
Theorem bootstrap_update_shape_error self g s z :
  length (likelihoods_of self s z) ≠ num_particles s →
  length (likelihoods_of self s z) ≠ 1%nat →
  num_particles s ≠ 1%nat →
  BootstrapParticleFilter.update self g s z = Err ValueError.
Proof.
  intros Hlen H1 Hn. unfold BootstrapParticleFilter.update,
    BootstrapParticleFilter.new_weights, Np.mul_arrays.
  fold (likelihoods_of self s z). fold (weights s).
  rewrite bool_decide_eq_false_2 by (rewrite length_weights; congruence).
  rewrite <- length_weights in Hn.
  destruct (likelihoods_of self s z) as [|l [|l' ls]]; [|done|];
    by destruct (weights s) as [|w [|w' ws]].
Qed.

Lemma fill_rows_shape_error self (predicted : list (list num)) a i zs :
  Exists (λ z, let l := likelihood_function self (det_state_vector z) predicted
                          (covar (measurement_model self)) in
               length l ≠ length predicted ∧ length l ≠ 1%nat) zs →
  ExpectedLikelihoodParticleFilter.fill_rows self predicted a i zs = Err ValueError.
Proof.
  intros Hbad. revert a i.
  induction zs as [|z zs IH]; intros a i; [by apply Exists_nil in Hbad|].
  apply Exists_cons in Hbad. csimpl. unfold Np.assign_row.
  set (l := likelihood_function _ _ _ _) in *.
  case_bool_decide as Hlen.
  - csimpl. apply IH. destruct Hbad as [[Hne _]|Hbad]; [done|done].
  - destruct l as [|x [|x' l']] eqn:Hl; csimpl; [done| |done].
    apply IH. destruct Hbad as [[_ Hne]|Hbad]; [done|done].
Qed.

(** X10.  The expected-likelihood update raises a [ValueError] as soon as the
    likelihood vector of one of the measurements has a length that is
    neither the number of predicted measurements nor one. *)
Theorem expected_update_shape_error self g s zs :
  Exists (λ z, length (likelihoods_of self s z)
               ≠ length (mm_function (measurement_model self) s)
               ∧ length (likelihoods_of self s z) ≠ 1%nat) zs →
  ExpectedLikelihoodParticleFilter.update self g s zs = Err ValueError.
Proof.
  intros Hbad. unfold ExpectedLikelihoodParticleFilter.update,
    ExpectedLikelihoodParticleFilter.new_weights,
    ExpectedLikelihoodParticleFilter.expected_likelihoods,
    ExpectedLikelihoodParticleFilter.association_probabilities.
  by rewrite fill_rows_shape_error.
Qed.

(** *** Predict on a transition model of the wrong shape *)




(** *** State vectors *)


(** *** Which particles systematic resampling selects *)

Lemma selected_indices_eq g s :
  (0 < num_particles s)%nat →
  selected_indices g s
  = Ok (Np.searchsorted (forced_cdf s) (sample_points g (num_particles s))).
Proof. intros Hn. unfold selected_indices. by rewrite resample_index_eq. Qed.

Lemma searchsorted_lookup g s j i :
  Np.searchsorted (forced_cdf s) (sample_points g (num_particles s)) !! j = Some i →
  (j < num_particles s)%nat
  ∧ i = Np.searchsorted1 (forced_cdf s) (Fin (sample_point g (num_particles s) j)).
Proof.
  intros Hj. pose proof (lookup_lt_Some _ _ _ Hj) as Hlt.
  rewrite length_searchsorted in Hlt. split; [done|].
  unfold Np.searchsorted, sample_points in Hj.
  rewrite !list_lookup_fmap, lookup_seq_lt in Hj by done.
  simpl in Hj. by injection Hj.
Qed.


Lemma sample_point_S g n j :
  (0 < n)%nat →
  sample_point g n (S j) = sample_point g n j + 1 / Qc_of_nat n.
Proof.
  intros Hn. pose proof (Qc_of_nat_ne_0 n Hn).
  unfold sample_point. rewrite Qc_of_nat_S. by field.
Qed.


Lemma step_pos n : (0 < n)%nat → 0 < 1 / Qc_of_nat n.
Proof.
  intros Hn. unfold Qcdiv. rewrite Qcmult_1_l.
  by apply Qcinv_pos, Qc_of_nat_pos.
Qed.

Lemma sample_point_mono g n j j' :
  (0 < n)%nat → (j ≤ j')%nat → sample_point g n j ≤ sample_point g n j'.
Proof.
  intros Hn. induction 1 as [|j' _ IH]; [done|].
  rewrite sample_point_S by done. pose proof (step_pos n Hn) as Hstep.
  set (h := 1 / Qc_of_nat n) in *. clearbody h.
  set (u := sample_point g n j) in *. set (u' := sample_point g n j') in *.
  clearbody u u'. to_Q. lra.
Qed.


Lemma ge_Fin a b : Np.ge (Fin a) (Fin b) = bool_decide (b ≤ a).
Proof. done. Qed.

(** X13.  The particles are selected in their order: the index selected for a
    later sample point is never below the one selected for an earlier point,
    so that the copies of one particle are next to each other. *)
Theorem selected_indices_monotone g s :
  (0 < num_particles s)%nat → nonneg_weights s →
  ∃ index, selected_indices g s = Ok index
           ∧ ∀ j j' i i', (j ≤ j')%nat →
               index !! j = Some i → index !! j' = Some i' → (i ≤ i')%nat.
Proof.
  intros Hn Hnn. eexists. split; [by apply selected_indices_eq|].
  intros j j' i i' Hjj' [Hj ->]%searchsorted_lookup [Hj' ->]%searchsorted_lookup.
  pose proof (searchsorted1_first_index g s j Hnn Hj) as (_ & _ & Hmin).
  pose proof (searchsorted1_first_index g s j' Hnn Hj') as (Hlt' & Hge' & _).
  set (i := Np.searchsorted1 _ (Fin (sample_point g _ j))) in *.
  set (i' := Np.searchsorted1 _ (Fin (sample_point g _ j'))) in *.
  destruct (decide (i ≤ i')%nat) as [|Hgt]; [done|]. exfalso.
  assert (i' < i)%nat as Hlt by lia. specialize (Hmin i' Hlt).
  rewrite length_forced_cdf in Hlt'.
  destruct (forced_cdf_is_Fin s i' Hnn Hlt') as [c Hc].
  rewrite Hc, ge_Fin in Hmin, Hge'.
  apply bool_decide_eq_true in Hge'. apply bool_decide_eq_false in Hmin.
  apply Hmin. eapply Qcle_trans; [|done]. by apply sample_point_mono.
Qed.






End Further.

(** ** The further properties at the examples *)

Lemma flat_filter_conforms : models_conform flat_filter.
Proof.
  split_and!.
  - intros g s time_interval. exists (stacked_states s), g. split; [done|].
    unfold stacked_states. apply length_fmap.
  - intros s. unfold measurement_conforms, stacked_states. simpl.
    apply length_fmap.
  - intros s z. unfold likelihood_conforms, likelihoods_of. simpl.
    unfold stacked_states. by rewrite !length_fmap.
Qed.


Lemma nan_state_all_nan : all_nan nan_state.
Proof. repeat constructor. Qed.


Lemma expected_update_no_measurements_witness :
  ∃ s', ExpectedLikelihoodParticleFilter.update example_filter 0%nat example_state []
        = Ok (s', 0%nat)
        ∧ weights s' = [NaN; NaN; NaN].
Proof.
  destruct (expected_update_no_measurements example_filter 0%nat example_state
              example_measurement_conforms) as (s' & Hupd & _ & Hw).
  exists s'. exact (conj Hupd Hw).
Defined.

Lemma expected_update_all_nan_witness :
  ∃ s', ExpectedLikelihoodParticleFilter.update flat_filter 0%nat nan_state
          [example_detection] = Ok (s', 0%nat)
        ∧ all_nan s'.
Proof.
  destruct flat_filter_conforms as (_ & Hmm & Hlik).
  destruct (expected_update_all_nan flat_filter 0%nat nan_state [example_detection]
              (Hmm nan_state)
              (Forall_cons_2 _ _ _ (Hlik nan_state example_detection) (Forall_nil_2 _))
              nan_state_all_nan) as (s' & Hupd & _ & Hnan).
  exists s'. exact (conj Hupd Hnan).
Defined.


Lemma uniform_state_weights :
  weights uniform_state
  = replicate (num_particles uniform_state)
      (Fin (1 / Qc_of_nat (num_particles uniform_state))).
Proof. reflexivity. Qed.

Lemma resample_uniform_skipped_witness :
  resample 5%nat uniform_state = Ok (uniform_state, 5%nat).
Proof.
  exact (proj2 (resample_uniform_skipped 5%nat uniform_state (Nat.lt_0_succ 2)
                  uniform_state_weights)).
Defined.

Lemma resample_twice_witness :
  ∃ s' g1, resample 5%nat peaked_state = Ok (s', g1)
           ∧ resample 9%nat s' = Ok (s', 9%nat).
Proof.
  destruct (resample_total 5%nat peaked_state) as (s' & g1 & Hres).
  exists s', g1. exact (conj Hres (resample_twice 5%nat peaked_state s' g1 9%nat Hres)).
Defined.






Lemma two_state_wrong_length :
  length (likelihoods_of example_filter two_state example_detection)
  ≠ num_particles two_state.
Proof. discriminate. Qed.

Lemma two_state_not_scalar :
  length (likelihoods_of example_filter two_state example_detection) ≠ 1%nat.
Proof. discriminate. Qed.

Lemma two_state_not_single : num_particles two_state ≠ 1%nat.
Proof. discriminate. Qed.

Lemma bootstrap_update_shape_error_witness :
  BootstrapParticleFilter.update example_filter 0%nat two_state example_detection
  = Err ValueError.
Proof.
  exact (bootstrap_update_shape_error example_filter 0%nat two_state
           example_detection two_state_wrong_length two_state_not_scalar
           two_state_not_single).
Defined.

Lemma expected_update_shape_error_witness :
  ExpectedLikelihoodParticleFilter.update example_filter 0%nat two_state
    [example_detection] = Err ValueError.
Proof.
  apply (expected_update_shape_error example_filter 0%nat two_state
           [example_detection]).
  apply Exists_cons_hd.
  exact (conj two_state_wrong_length two_state_not_scalar).
Defined.



Lemma selected_indices_monotone_witness :
  ∃ index, selected_indices 5%nat peaked_state = Ok index
           ∧ ∀ i i', index !! 0%nat = Some i → index !! 2%nat = Some i' → (i ≤ i')%nat.
Proof.
  destruct (selected_indices_monotone 5%nat peaked_state (Nat.lt_0_succ 2)
              peaked_state_nonneg) as (index & Hindex & Hmono).
  exists index. split; [exact Hindex|].
  intros i i'. exact (Hmono 0%nat 2%nat i i' (Nat.le_0_l 2)).
Defined.










(** The draw has to differ from zero for a heavy particle to survive: of
    four particles weighing 0.02, 0.03, 0.7 and 0.25, a draw of zero selects
    the first once and the third three times, and the last, which weighs
    [1 / 4], is lost; a draw of 5/16 keeps it. *)
Example zero_draw_loses_heavy_particle :
  resample_needed quarter_state = true
  ∧ selected_indices 0%nat quarter_state = Ok [0; 2; 2; 2]%nat
  ∧ selected_indices 5%nat quarter_state = Ok [2; 2; 2; 3]%nat.
Proof. by vm_compute. Qed.
